(** * Entropy engine of almanack

    Shallow embedding of [almanack/metrics/entropy/calculate_entropy.py]
    (and its duplicate [almanack/entropy.py]) together with the change-volume
    extractor [almanack/git.py : get_loc_changed].

    Modelling choices:
    - a Python [dict] is an association list kept in insertion order (the
      iteration order of a Python dict); assignment [d[k] = v] updates the
      entry in place when [k] is present and appends it otherwise;
    - Python [int] line counts are [nat];
    - Python [float] values are modelled by the real numbers [R]
      (exact arithmetic, [math.log2 x] is [ln x / ln 2]);
    - a [pygit2] diff is a list of patches, each with the path of its new
      file and its hunks, a hunk being the list of origin characters of its
      lines. *)

From Stdlib Require Import List String Ascii Bool Arith Lia Reals Lra ZArith Permutation.
Import ListNotations.
Open Scope R_scope.

(** ** Data model *)

(** ChangeVolumeMap: [dict[str, int]] of lines changed per file. *)
Definition change_volume := list (string * nat).

(** FileEntropyMap: [dict[str, float]]. *)
Definition file_entropy_map := list (string * R).

(** [math.log2]. *)
Definition log2 (x : R) : R := ln x / ln 2.

(** [sum(d.values())] for an int-valued dict. *)
Fixpoint sum_values (d : change_volume) : nat :=
  match d with
  | [] => 0%nat
  | (_, v) :: t => (v + sum_values t)%nat
  end.

(** [sum(d.values())] for a float-valued dict. *)
Fixpoint sum_entropies (d : file_entropy_map) : R :=
  match d with
  | [] => 0
  | (_, v) :: t => v + sum_entropies t
  end.

(** Python [d[k] = v] on a dict. *)
Fixpoint dict_set {V : Type} (d : list (string * V)) (k : string) (v : V)
  : list (string * V) :=
  match d with
  | [] => [(k, v)]
  | (k', v') :: t =>
      if String.eqb k k' then (k, v) :: t else (k', v') :: dict_set t k v
  end.

(** ** Change-volume extractor: [get_loc_changed] *)

Record patch := {
  new_file_path : string;
  hunks : list (list ascii)   (* each hunk: the [line.origin] of its lines *)
}.

Definition diff := list patch.

(** The inner loops over hunks and lines, returning [(additions, deletions)]. *)
Definition count_additions_deletions (p : patch) : nat * nat :=
  fold_left
    (fun acc hunk =>
       fold_left
         (fun '(additions, deletions) origin =>
            if Ascii.eqb origin "+"%char then (S additions, deletions)
            else if Ascii.eqb origin "-"%char then (additions, S deletions)
            else (additions, deletions))
         hunk acc)
    (hunks p) (0%nat, 0%nat).

Definition lines_changed (p : patch) : nat :=
  let '(additions, deletions) := count_additions_deletions p in
  (additions + deletions)%nat.

(** [for patch in diff: if patch.delta.new_file.path in file_names: ...] *)
Definition get_loc_changed (d : diff) (file_names : list string) : change_volume :=
  fold_left
    (fun changes p =>
       if existsb (String.eqb (new_file_path p)) file_names
       then dict_set changes (new_file_path p) (lines_changed p)
       else changes)
    d [].

(** ** Entropy engine *)

(** The conditional expression of the dict comprehension, for a file with
    [loc_changes[file_name] = c] and [total_changes = total]. *)
Definition entropy_term (c total : nat) : R :=
  if negb (c =? 0)%nat && negb (total =? 0)%nat
  then - ((INR c / INR total) * log2 (INR c / INR total))
  else 0.

(** Body of [calculate_normalized_entropy] after the extractor call
    (lines 48-66): the per-file entropy of a change-volume map. *)
Definition entropy_of_changes (loc_changes : change_volume) : file_entropy_map :=
  let total_changes := sum_values loc_changes in
  map (fun '(file_name, c) => (file_name, entropy_term c total_changes))
      loc_changes.

(** [calculate_normalized_entropy(repo_path, source, target, file_names)]. *)
Definition calculate_normalized_entropy (d : diff) (file_names : list string)
  : file_entropy_map :=
  entropy_of_changes (get_loc_changed d file_names).

(** Body of [calculate_aggregate_entropy] after the entropy call
    (lines 100-108). *)
Definition aggregate_of_entropies (entropy_calculation : file_entropy_map)
  (file_names : list string) : R :=
  let total_entropy := sum_entropies entropy_calculation in
  let num_files := List.length file_names in
  if (0 <? num_files)%nat then total_entropy / INR num_files else 0.

(** The aggregate as a function of a change-volume map and the requested
    files (whose count is [len(file_names)]). *)
Definition compute_aggregate_entropy (loc_changes : change_volume)
  (file_names : list string) : R :=
  aggregate_of_entropies (entropy_of_changes loc_changes) file_names.

(** [calculate_aggregate_entropy(repo_path, source, target, file_names)]. *)
Definition calculate_aggregate_entropy (d : diff) (file_names : list string) : R :=
  aggregate_of_entropies (calculate_normalized_entropy d file_names) file_names.

(** ** Python's raising operations

    The same two functions, with every operation that can raise in Python
    made explicit: true division raises [ZeroDivisionError] on a zero
    divisor and [math.log2] raises [ValueError] ("math domain error") on a
    non-positive argument. A computation either returns a value ([inl]) or
    raises ([inr]). *)

Inductive py_exception := ZeroDivisionError | ValueError.

Definition Exc (A : Type) : Type := (A + py_exception)%type.

Definition ret {A} (a : A) : Exc A := inl a.

Definition bind {A B} (m : Exc A) (k : A -> Exc B) : Exc B :=
  match m with
  | inl a => k a
  | inr e => inr e
  end.

Notation "x <- m ;; k" := (bind m (fun x => k))
  (at level 61, m at next level, right associativity).

Fixpoint mapM {A B} (f : A -> Exc B) (l : list A) : Exc (list B) :=
  match l with
  | [] => ret []
  | a :: t => b <- f a ;; bs <- mapM f t ;; ret (b :: bs)
  end.

(** [x / y] on numbers. *)
Definition py_truediv (x y : R) : Exc R :=
  if Req_EM_T y 0 then inr ZeroDivisionError else ret (x / y).

(** [math.log2(x)]. *)
Definition py_log2 (x : R) : Exc R :=
  if Rlt_dec 0 x then ret (log2 x) else inr ValueError.

(** The conditional expression of the comprehension; [and] short-circuits
    and only the taken branch is evaluated. *)
Definition entropy_term_py (c total : nat) : Exc R :=
  if negb (c =? 0)%nat && negb (total =? 0)%nat
  then p1 <- py_truediv (INR c) (INR total) ;;
       p2 <- py_truediv (INR c) (INR total) ;;
       l <- py_log2 p2 ;;
       ret (- (p1 * l))
  else ret 0.

Definition entropy_of_changes_py (loc_changes : change_volume)
  : Exc file_entropy_map :=
  let total_changes := sum_values loc_changes in
  mapM (fun '(file_name, c) =>
          v <- entropy_term_py c total_changes ;; ret (file_name, v))
       loc_changes.

Definition compute_aggregate_entropy_py (loc_changes : change_volume)
  (file_names : list string) : Exc R :=
  entropy_calculation <- entropy_of_changes_py loc_changes ;;
  let total_entropy := sum_entropies entropy_calculation in
  let num_files := List.length file_names in
  if (0 <? num_files)%nat then py_truediv total_entropy (INR num_files)
  else ret 0.

(** ** Reference formulas of the specification

    Section 4.1 of the specification, written as it words it: [total] is
    the sum of all counts; a file with count [c] gets [0.0] when [c == 0] or
    [total == 0] and [-p * log2(p)] with [p = c / total] otherwise. *)

Definition spec_total (m : change_volume) : nat := list_sum (map snd m).

Definition spec_file_entropy (c total : nat) : R :=
  if ((c =? 0) || (total =? 0))%nat then 0
  else let p := INR c / INR total in - p * log2 p.

Definition spec_file_entropy_map (m : change_volume) : file_entropy_map :=
  map (fun '(f, c) => (f, spec_file_entropy c (spec_total m))) m.

(** A change-volume map with every count multiplied by [k]. *)
Definition scale_counts (k : nat) (m : change_volume) : change_volume :=
  map (fun '(f, c) => (f, k * c)%nat) m.

(** ** Dict lookup *)

(** [d.get(k)]: the value stored under [k], if any. *)
Fixpoint dict_get {V : Type} (d : list (string * V)) (k : string) : option V :=
  match d with
  | [] => None
  | (k', v) :: t => if String.eqb k k' then Some v else dict_get t k
  end.

(** ** [almanack/git.py : get_edited_files] *)

(** A diff entry as [get_edited_files] reads it: [patch.delta.old_file.path]
    beside the patch (whose [new_file_path] is [patch.delta.new_file.path]). *)
Record diff_delta := {
  old_file_path : string;
  delta_patch : patch
}.

(** The patches of a diff, as [get_loc_changed] iterates them. *)
Definition patches_of (ds : list diff_delta) : diff := map delta_patch ds.

(** [s.add(x)] on a Python set of strings, kept as a list without
    duplicates. Python's [list(s)] has an unspecified order; nothing
    downstream depends on it ([in] tests membership, [len] counts). *)
Definition set_add (s : list string) (x : string) : list string :=
  if existsb (String.eqb x) s then s else s ++ [x].

(** A path is added when it is truthy, i.e. not the empty string. *)
Definition get_edited_files (ds : list diff_delta) : list string :=
  fold_left
    (fun file_names p =>
       let file_names :=
         if negb (String.eqb (old_file_path p) "") then
           set_add file_names (old_file_path p)
         else file_names in
       if negb (String.eqb (new_file_path (delta_patch p)) "") then
         set_add file_names (new_file_path (delta_patch p))
       else file_names)
    ds [].

(** ** Caller: [almanack/metrics/data.py : compute_pr_data] *)

(** The returned dict: the success shape, or the [except] shape carrying
    [str(e)]. *)
Inductive pr_data :=
| PrData (pr_branch main_branch : string) (total_entropy_introduced : R)
    (number_of_files_changed : nat) (file_level_entropy : file_entropy_map)
    (commits : string * string)
| PrError (pr_branch main_branch : string) (error : string).

Section Compute_pr_data.

(** The repository, opened at [repo_path]: [branch_target name] is
    [repo.get(repo.branches.local.get(name).target)], [None] when the branch
    does not exist ([.get] returns [None] and [.target] raises
    [AttributeError]); [repo_diff a b] is [repo.diff(a, b)]; [commit_date c]
    is the ISO date string of [c.commit_time]. *)
Variable commit : Type.
Variable branch_target : string -> option commit.
Variable repo_diff : commit -> commit -> list diff_delta.
Variable commit_date : commit -> string.

Definition compute_pr_data (pr_branch main_branch : string) : pr_data :=
  match branch_target pr_branch with
  | None =>
      PrError pr_branch main_branch "'NoneType' object has no attribute 'target'"
  | Some pr_commit =>
      match branch_target main_branch with
      | None =>
          PrError pr_branch main_branch
            "'NoneType' object has no attribute 'target'"
      | Some main_commit =>
          let changed_files := get_edited_files (repo_diff main_commit pr_commit) in
          let d := patches_of (repo_diff main_commit pr_commit) in
          let total_entropy_introduced :=
            calculate_aggregate_entropy d changed_files in
          let file_entropy := calculate_normalized_entropy d changed_files in
          PrData pr_branch main_branch total_entropy_introduced
            (List.length changed_files) file_entropy
            (commit_date main_commit, commit_date pr_commit)
      end
  end.

End Compute_pr_data.

(** ** [almanack/metrics/data.py : compute_almanack_score] *)

(** A row of the almanack table, as far as the score reads it:
    [item["result-type"]], [item["sustainability_correlation"]] and, for a
    boolean metric, [item["result"]] ([None] or a bool). *)
Record almanack_item := {
  result_type : string;
  sustainability_correlation : Z;
  result : option bool
}.

(** [int(b)] for a bool. *)
Definition int_of_bool (b : bool) : nat := if b then 1%nat else 0%nat.

(** What the loop appends to [bool_results] for one item, if anything. *)
Definition bool_result_of (item : almanack_item) : option nat :=
  if String.eqb (result_type item) "bool"
     && negb (Z.eqb (sustainability_correlation item) 0)
  then
    if Z.eqb (sustainability_correlation item) 1 then
      Some (match result item with Some b => int_of_bool b | None => 0%nat end)
    else if Z.eqb (sustainability_correlation item) (-1) then
      Some (match result item with Some b => int_of_bool (negb b) | None => 0%nat end)
    else None
  else None.

Definition bool_results (almanack_table : list almanack_item) : list nat :=
  fold_left
    (fun acc item =>
       match bool_result_of item with
       | Some v => acc ++ [v]
       | None => acc
       end)
    almanack_table [].

Record almanack_score := {
  almanack_score_numerator : option nat;
  almanack_score_denominator : option nat;
  almanack_score_value : option R
}.

Definition compute_almanack_score (almanack_table : list almanack_item)
  : almanack_score :=
  let bs := bool_results almanack_table in
  {| almanack_score_numerator :=
       match bs with [] => None | _ => Some (list_sum bs) end;
     almanack_score_denominator :=
       match bs with [] => None | _ => Some (List.length bs) end;
     almanack_score_value :=
       match bs with
       | [] => None
       | _ => Some (INR (list_sum bs) / INR (List.length bs))
       end |}.

(** Swapping the direction of every metric's correlation. *)
Definition flip_correlation (item : almanack_item) : almanack_item :=
  {| result_type := result_type item;
     sustainability_correlation := Z.opp (sustainability_correlation item);
     result := result item |}.

(** ** Concrete runs *)

Example get_loc_changed_ex :
  get_loc_changed
    [{| new_file_path := "a.md"; hunks := [["+"; " "; "-"]%char; ["+"]%char] |};
     {| new_file_path := "b.md"; hunks := [["+"]%char] |}]
    ["a.md"; "c.md"]%string
  = [("a.md", 3%nat)]%string.
Proof. reflexivity. Qed.

Example entropy_two_even :
  entropy_of_changes [("a.md", 5%nat); ("b.md", 5%nat)]%string
  = [("a.md", - ((INR 5 / INR 10) * log2 (INR 5 / INR 10)));
     ("b.md", - ((INR 5 / INR 10) * log2 (INR 5 / INR 10)))]%string.
Proof. reflexivity. Qed.

(** ** Facts about [- p * log2 p] on [(0, 1]] *)

Section Shannon_term.

Lemma ln2_pos : 0 < ln 2.
Proof. pose proof ln_lt_2; lra. Qed.

Lemma ln_nonpos (p : R) : 0 < p -> p <= 1 -> ln p <= 0.
Proof.
  intros Hp H1. destruct (Rle_lt_or_eq_dec _ _ H1) as [Hlt | ->].
  - rewrite <- ln_1. left. apply ln_increasing; lra.
  - rewrite ln_1. lra.
Qed.

Lemma ln_neg (p : R) : 0 < p -> p < 1 -> ln p < 0.
Proof. intros Hp H1. rewrite <- ln_1. apply ln_increasing; lra. Qed.

(** [- p ln p <= 1/2], through [ln y <= y - 1] at [y = 1 / sqrt p]. *)
Lemma neg_p_ln_p_le_half (p : R) : 0 < p -> - (p * ln p) <= / 2.
Proof.
  intros Hp.
  set (s := sqrt p).
  assert (Hs : 0 < s) by (apply sqrt_lt_R0; lra).
  assert (Hss : s * s = p) by (apply sqrt_sqrt; lra).
  assert (Hln : ln p = 2 * ln s).
  { rewrite <- Hss, ln_mult by lra. ring. }
  assert (Hinv : 1 + ln (/ s) <= / s).
  { pose proof (exp_ineq1_le (ln (/ s))) as H.
    rewrite exp_ln in H by (apply Rinv_0_lt_compat; lra). exact H. }
  rewrite ln_Rinv in Hinv by lra.
  assert (Hsi : s * / s = 1) by (field; lra).
  rewrite Hln, <- Hss.
  assert (- (s * s * (2 * ln s)) <= 2 * (s * s) * (/ s - 1)).
  { replace (- (s * s * (2 * ln s))) with (2 * (s * s) * (- ln s)) by ring.
    apply Rmult_le_compat_l; nra. }
  assert (2 * (s * s) * (/ s - 1) = 2 * s - 2 * (s * s)).
  { field; lra. }
  pose proof (Rle_0_sqr (2 * s - 1)) as Hsq. unfold Rsqr in Hsq.
  lra.
Qed.

Lemma shannon_term_nonneg (p : R) : 0 < p -> p <= 1 -> 0 <= - (p * log2 p).
Proof.
  intros Hp H1. unfold log2. pose proof ln2_pos. pose proof (ln_nonpos p Hp H1).
  assert (ln p / ln 2 <= 0).
  { unfold Rdiv. assert (0 < / ln 2) by (apply Rinv_0_lt_compat; lra). nra. }
  nra.
Qed.

Lemma shannon_term_pos (p : R) : 0 < p -> p < 1 -> 0 < - (p * log2 p).
Proof.
  intros Hp H1. unfold log2. pose proof ln2_pos. pose proof (ln_neg p Hp H1).
  assert (ln p / ln 2 < 0).
  { unfold Rdiv. assert (0 < / ln 2) by (apply Rinv_0_lt_compat; lra). nra. }
  nra.
Qed.

Lemma shannon_term_at_1 : - (1 * log2 1) = 0.
Proof. unfold log2. rewrite ln_1. unfold Rdiv. ring. Qed.

Lemma shannon_term_le_1 (p : R) : 0 < p -> - (p * log2 p) <= 1.
Proof.
  intros Hp. unfold log2. pose proof ln2_pos. pose proof ln_lt_2.
  pose proof (neg_p_ln_p_le_half p Hp).
  replace (- (p * (ln p / ln 2))) with (- (p * ln p) / ln 2) by (field; lra).
  apply (Rmult_le_reg_r (ln 2)); [lra |].
  unfold Rdiv. rewrite Rmult_assoc, Rinv_l by lra. lra.
Qed.

End Shannon_term.

(** ** The comprehension term *)

Lemma INR_div_pos (c total : nat) :
  (0 < c)%nat -> (c <= total)%nat -> 0 < INR c / INR total <= 1.
Proof.
  intros Hc Hle.
  assert (0 < INR c) by (apply lt_0_INR; lia).
  assert (INR c <= INR total) by (apply le_INR; lia).
  split.
  - apply Rdiv_lt_0_compat; lra.
  - apply (Rmult_le_reg_r (INR total)); [lra |].
    unfold Rdiv. rewrite Rmult_assoc, Rinv_l by lra. lra.
Qed.

Lemma entropy_term_active (c total : nat) :
  c <> 0%nat -> total <> 0%nat ->
  entropy_term c total = - ((INR c / INR total) * log2 (INR c / INR total)).
Proof.
  intros Hc Ht. unfold entropy_term.
  apply Nat.eqb_neq in Hc, Ht. rewrite Hc, Ht. reflexivity.
Qed.

Lemma entropy_term_idle (c total : nat) :
  (c = 0 \/ total = 0)%nat -> entropy_term c total = 0.
Proof.
  intros [-> | ->]; unfold entropy_term; simpl;
    [reflexivity | rewrite andb_false_r; reflexivity].
Qed.

Lemma entropy_term_bounds (c total : nat) :
  (c <= total)%nat -> 0 <= entropy_term c total <= 1.
Proof.
  intros Hle.
  destruct (Nat.eq_dec c 0) as [Hc | Hc].
  { rewrite entropy_term_idle by auto. lra. }
  rewrite entropy_term_active by lia.
  destruct (INR_div_pos c total) as [Hp H1]; try lia.
  split; [apply shannon_term_nonneg | apply shannon_term_le_1]; assumption.
Qed.

Lemma entropy_term_zero_iff (c total : nat) :
  (c <= total)%nat -> entropy_term c total = 0 <-> (c = 0 \/ c = total)%nat.
Proof.
  intros Hle.
  destruct (Nat.eq_dec c 0) as [Hc | Hc].
  { rewrite entropy_term_idle by auto. split; auto. }
  rewrite entropy_term_active by lia.
  split.
  - intros H0. right.
    destruct (Nat.eq_dec c total) as [-> | Hne]; [reflexivity | exfalso].
    destruct (INR_div_pos c total) as [Hp H1]; try lia.
    assert (INR c < INR total) by (apply lt_INR; lia).
    assert (0 < INR c) by (apply lt_0_INR; lia).
    assert (INR c / INR total < 1).
    { apply (Rmult_lt_reg_r (INR total)); [lra |].
      unfold Rdiv. rewrite Rmult_assoc, Rinv_l by lra. lra. }
    pose proof (shannon_term_pos _ Hp H3). lra.
  - intros [H | <-]; [lia |].
    assert (INR c <> 0) by (apply not_0_INR; lia).
    replace (INR c / INR c) with 1 by (field; assumption).
    apply shannon_term_at_1.
Qed.

Lemma entropy_term_pos (c total : nat) :
  (0 < c < total)%nat -> 0 < entropy_term c total.
Proof.
  intros Hc.
  destruct (entropy_term_bounds c total) as [H0 _]; [lia |].
  destruct (Req_dec (entropy_term c total) 0) as [Heq | Hne]; [| lra].
  apply entropy_term_zero_iff in Heq; lia.
Qed.

(** ** Lists of entries *)

Lemma in_le_sum_values (m : change_volume) (f : string) (c : nat) :
  In (f, c) m -> (c <= sum_values m)%nat.
Proof.
  induction m as [| [f' c'] t IH]; simpl; [contradiction |].
  intros [H | H]; [inversion H; subst; lia | specialize (IH H); lia].
Qed.

Lemma in_entropy_of_changes (m : change_volume) (f : string) (v : R) :
  In (f, v) (entropy_of_changes m) <->
  exists c, In (f, c) m /\ v = entropy_term c (sum_values m).
Proof.
  unfold entropy_of_changes. rewrite in_map_iff. split.
  - intros [[f' c] [He Hin]]. inversion He; subst. eauto.
  - intros [c [Hin ->]]. exists (f, c). auto.
Qed.

Lemma entropy_of_changes_keys (m : change_volume) :
  map fst (entropy_of_changes m) = map fst m.
Proof.
  unfold entropy_of_changes. rewrite map_map.
  apply map_ext. intros [f c]. reflexivity.
Qed.

Lemma sum_entropies_nonneg (l : file_entropy_map) :
  (forall f v, In (f, v) l -> 0 <= v) -> 0 <= sum_entropies l.
Proof.
  induction l as [| [f v] t IH]; simpl; intros H; [lra |].
  assert (0 <= v) by (apply (H f); auto).
  assert (0 <= sum_entropies t) by (apply IH; intros; eapply H; eauto).
  lra.
Qed.

Lemma sum_entropies_zero_iff (l : file_entropy_map) :
  (forall f v, In (f, v) l -> 0 <= v) ->
  sum_entropies l = 0 <-> (forall f v, In (f, v) l -> v = 0).
Proof.
  induction l as [| [f v] t IH]; simpl; intros H.
  { split; [contradiction | reflexivity]. }
  assert (Hv : 0 <= v) by (apply (H f); auto).
  assert (Ht : forall f v, In (f, v) t -> 0 <= v) by (intros; eapply H; eauto).
  pose proof (sum_entropies_nonneg t Ht).
  split.
  - intros Hs f' v' [He | Hin].
    + inversion He; subst. lra.
    + apply (proj1 (IH Ht) ltac:(lra) f' v' Hin).
  - intros Hz. rewrite (Hz f v) by auto.
    rewrite (proj2 (IH Ht)) by (intros; eapply Hz; eauto). ring.
Qed.

Lemma entropy_of_changes_nonneg (m : change_volume) (f : string) (v : R) :
  In (f, v) (entropy_of_changes m) -> 0 <= v.
Proof.
  intros H. apply in_entropy_of_changes in H as [c [Hin ->]].
  apply entropy_term_bounds. eapply in_le_sum_values; eauto.
Qed.

(** ** Aggregate *)

Lemma compute_aggregate_entropy_eq (m : change_volume) (fs : list string) :
  compute_aggregate_entropy m fs =
  if (List.length fs =? 0)%nat then 0
  else sum_entropies (entropy_of_changes m) / INR (List.length fs).
Proof.
  unfold compute_aggregate_entropy, aggregate_of_entropies.
  destruct (List.length fs) as [| n]; reflexivity.
Qed.

Lemma aggregate_nonneg (m : change_volume) (fs : list string) :
  0 <= compute_aggregate_entropy m fs.
Proof.
  rewrite compute_aggregate_entropy_eq.
  destruct (List.length fs =? 0)%nat eqn:Hn; [lra |].
  apply Nat.eqb_neq in Hn.
  assert (0 < INR (List.length fs)) by (apply lt_0_INR; lia).
  pose proof (sum_entropies_nonneg _ (entropy_of_changes_nonneg m)).
  unfold Rdiv. apply Rmult_le_pos; [lra | left; apply Rinv_0_lt_compat; lra].
Qed.

Lemma aggregate_zero_iff (m : change_volume) (fs : list string) :
  compute_aggregate_entropy m fs = 0 <->
  fs = [] \/ (forall f c, In (f, c) m -> c = 0%nat \/ c = sum_values m).
Proof.
  rewrite compute_aggregate_entropy_eq.
  destruct (List.length fs =? 0)%nat eqn:Hn.
  { apply Nat.eqb_eq, length_zero_iff_nil in Hn. split; auto. }
  apply Nat.eqb_neq in Hn.
  assert (Hpos : 0 < INR (List.length fs)) by (apply lt_0_INR; lia).
  assert (Hfs : fs <> []) by (intros ->; simpl in Hn; lia).
  assert (Hdiv : forall s, s / INR (List.length fs) = 0 <-> s = 0).
  { intros s. split; intros H; [| rewrite H; unfold Rdiv; ring].
    apply (Rmult_eq_reg_r (/ INR (List.length fs))).
    - rewrite Rmult_0_l. exact H.
    - apply Rinv_neq_0_compat. lra. }
  rewrite Hdiv, (sum_entropies_zero_iff _ (entropy_of_changes_nonneg m)). split.
  - intros H. right. intros f c Hin.
    apply entropy_term_zero_iff; [eapply in_le_sum_values; eauto |].
    apply (H f). apply in_entropy_of_changes. eauto.
  - intros [H | H]; [contradiction |].
    intros f v Hin. apply in_entropy_of_changes in Hin as [c [Hin ->]].
    apply entropy_term_zero_iff; [eapply in_le_sum_values; eauto |].
    eapply H; eauto.
Qed.

Lemma aggregate_pos (m : change_volume) (fs : list string) (f : string) (c : nat) :
  fs <> [] -> In (f, c) m -> (0 < c < sum_values m)%nat ->
  0 < compute_aggregate_entropy m fs.
Proof.
  intros Hfs Hin Hc.
  pose proof (aggregate_nonneg m fs).
  destruct (Req_dec (compute_aggregate_entropy m fs) 0) as [H0 | H0]; [| lra].
  apply aggregate_zero_iff in H0 as [H0 | H0]; [contradiction |].
  specialize (H0 f c Hin). lia.
Qed.

(** ** Keys produced by the extractor *)

Lemma existsb_eqb_In (x : string) (l : list string) :
  existsb (String.eqb x) l = true <-> In x l.
Proof.
  rewrite existsb_exists. split.
  - intros [y [Hy He]]. apply String.eqb_eq in He. subst. exact Hy.
  - intros H. exists x. split; [exact H | apply String.eqb_refl].
Qed.

Lemma dict_set_keys {V : Type} (d : list (string * V)) (k : string) (v : V)
  (k' : string) :
  In k' (map fst (dict_set d k v)) <-> k' = k \/ In k' (map fst d).
Proof.
  induction d as [| [k0 v0] t IH]; simpl.
  - split; [intros [H | []]; auto | intros [H | []]; auto].
  - destruct (String.eqb k k0) eqn:E.
    + apply String.eqb_eq in E. subst k0. simpl.
      split; [intros [H | H]; auto | intros [H | [H | H]]; auto].
    + simpl. rewrite IH.
      split; [intros [H | [H | H]]; auto | intros [H | [H | H]]; auto].
Qed.

Lemma get_loc_changed_keys_acc (d : diff) (fs : list string)
  (acc : change_volume) (f : string) :
  In f (map fst (fold_left
     (fun changes p =>
        if existsb (String.eqb (new_file_path p)) fs
        then dict_set changes (new_file_path p) (lines_changed p)
        else changes) d acc)) <->
  In f (map fst acc) \/ (In f fs /\ exists p, In p d /\ new_file_path p = f).
Proof.
  revert acc. induction d as [| p t IH]; intros acc; simpl.
  - split; [auto | intros [H | [_ [p [[] _]]]]; exact H].
  - rewrite IH. destruct (existsb (String.eqb (new_file_path p)) fs) eqn:E.
    + apply existsb_eqb_In in E. rewrite dict_set_keys. split.
      * intros [[-> | H] | [Hf [q [Hq Hqf]]]]; eauto 7.
      * intros [H | [Hf [q [[<- | Hq] Hqf]]]]; eauto 7.
    + split.
      * intros [H | [Hf [q [Hq Hqf]]]]; eauto 7.
      * intros [H | [Hf [q [[<- | Hq] Hqf]]]]; eauto 7.
        exfalso. subst f. apply existsb_eqb_In in Hf. congruence.
Qed.

Lemma get_loc_changed_keys (d : diff) (fs : list string) (f : string) :
  In f (map fst (get_loc_changed d fs)) <->
  In f fs /\ exists p, In p d /\ new_file_path p = f.
Proof.
  unfold get_loc_changed. rewrite get_loc_changed_keys_acc. simpl. tauto.
Qed.

(** ** The raising operations are never reached *)

Lemma entropy_term_py_ok (c total : nat) :
  entropy_term_py c total = inl (entropy_term c total).
Proof.
  unfold entropy_term_py, entropy_term.
  destruct (negb (c =? 0)%nat && negb (total =? 0)%nat) eqn:E; [| reflexivity].
  apply andb_true_iff in E as [Hc Ht].
  apply negb_true_iff, Nat.eqb_neq in Hc, Ht.
  assert (0 < INR c) by (apply lt_0_INR; lia).
  assert (0 < INR total) by (apply lt_0_INR; lia).
  assert (0 < INR c / INR total) by (apply Rdiv_lt_0_compat; lra).
  unfold py_truediv, py_log2.
  destruct (Req_EM_T (INR total) 0); [lra |]. simpl.
  destruct (Rlt_dec 0 (INR c / INR total)); [reflexivity | lra].
Qed.

Lemma entropy_of_changes_py_ok (m : change_volume) :
  entropy_of_changes_py m = inl (entropy_of_changes m).
Proof.
  unfold entropy_of_changes_py, entropy_of_changes.
  generalize (sum_values m) as total. intros total.
  induction m as [| [f c] t IH]; [reflexivity |].
  simpl. rewrite entropy_term_py_ok. simpl. rewrite IH. reflexivity.
Qed.

Lemma sum_values_list_sum (m : change_volume) :
  sum_values m = spec_total m.
Proof.
  unfold spec_total. induction m as [| [f c] t IH]; simpl; [reflexivity |].
  rewrite IH. reflexivity.
Qed.

Lemma sum_values_scale (k : nat) (m : change_volume) :
  sum_values (scale_counts k m) = (k * sum_values m)%nat.
Proof.
  induction m as [| [f c] t IH]; simpl; [lia |]. rewrite IH. lia.
Qed.

Lemma entropy_term_scale (k c total : nat) :
  (0 < k)%nat -> entropy_term (k * c) (k * total) = entropy_term c total.
Proof.
  intros Hk.
  destruct (Nat.eq_dec c 0) as [Hc | Hc].
  { subst c. rewrite Nat.mul_0_r. reflexivity. }
  destruct (Nat.eq_dec total 0) as [Ht | Ht].
  { subst total. rewrite Nat.mul_0_r, !entropy_term_idle by auto. reflexivity. }
  rewrite !entropy_term_active by lia.
  assert (INR k <> 0) by (apply not_0_INR; lia).
  assert (INR total <> 0) by (apply not_0_INR; lia).
  rewrite !mult_INR.
  replace (INR k * INR c / (INR k * INR total)) with (INR c / INR total)
    by (field; split; assumption).
  reflexivity.
Qed.

(** * Claims *)

(** C1: for every change-volume map, the per-file entropy assigns each file
    with count [c] the value [0.0] when [c == 0] or the total of all counts is
    [0], and [-p * log2(p)] with [p = c / total] otherwise: the computed map
    is the input map with each count replaced by the specification's value. *)
Theorem C1_file_entropy_formula (m : change_volume) :
  entropy_of_changes m = spec_file_entropy_map m.
Proof.
  unfold entropy_of_changes, spec_file_entropy_map.
  rewrite <- sum_values_list_sum.
  apply map_ext. intros [f c]. f_equal.
  unfold entropy_term, spec_file_entropy.
  destruct (c =? 0)%nat, (sum_values m =? 0)%nat; simpl; try reflexivity.
  ring.
Qed.

(** C2: the aggregate is the sum of all per-file entropy values divided by
    the requested file count [len(file_names)], and [0.0] when that count is
    [0]; the divisor is the length of the request, not the number of keys of
    the entropy map. *)
Theorem C2_aggregate_formula (m : change_volume) (file_names : list string) :
  compute_aggregate_entropy m file_names =
  if (List.length file_names =? 0)%nat then 0
  else sum_entropies (entropy_of_changes m) / INR (List.length file_names).
Proof. apply compute_aggregate_entropy_eq. Qed.

(** C3: every value of the per-file entropy map lies in [[0, 1]]. *)
Theorem C3_file_entropy_range (m : change_volume) (f : string) (v : R) :
  In (f, v) (entropy_of_changes m) -> 0 <= v <= 1.
Proof.
  intros H. apply in_entropy_of_changes in H as [c [Hin ->]].
  apply entropy_term_bounds. eapply in_le_sum_values; eauto.
Qed.

Lemma C3_file_entropy_range_witness :
  In ("b.md"%string, entropy_term 5 10) (entropy_of_changes [("a.md", 5%nat); ("b.md", 5%nat)]%string)
  /\ 0 <= entropy_term 5 10 <= 1.
Proof.
  split; [simpl; auto |].
  apply (C3_file_entropy_range [("a.md", 5%nat); ("b.md", 5%nat)]%string "b.md"%string).
  simpl; auto.
Defined.

(** C4: every per-file entropy value is [>= 0]; a file's value is exactly
    [0.0] iff its share [c / total] of the changes is [0] or [1], i.e. iff
    [c = 0] or [c = total]; in particular it is [0.0] whenever [c = 0] or
    [total = 0]. *)
Theorem C4_file_entropy_zero_iff (m : change_volume) (f : string) (c : nat) :
  In (f, c) m ->
  exists v, In (f, v) (entropy_of_changes m) /\ 0 <= v /\
    (v = 0 <-> (c = 0 \/ c = sum_values m)%nat) /\
    ((c = 0 \/ sum_values m = 0)%nat -> v = 0).
Proof.
  intros Hin.
  pose proof (in_le_sum_values m f c Hin) as Hle.
  exists (entropy_term c (sum_values m)). split; [| split; [| split]].
  - apply in_entropy_of_changes. eauto.
  - apply entropy_term_bounds. exact Hle.
  - apply entropy_term_zero_iff. exact Hle.
  - apply entropy_term_idle.
Qed.

Lemma C4_file_entropy_zero_iff_witness :
  In ("a.md"%string, 10%nat) [("a.md", 10%nat)]%string /\
  exists v, In ("a.md"%string, v) (entropy_of_changes [("a.md", 10%nat)]%string) /\
    0 <= v /\ (v = 0 <-> (10 = 0 \/ 10 = sum_values [("a.md", 10%nat)]%string)%nat) /\
    ((10 = 0 \/ sum_values [("a.md", 10%nat)]%string = 0)%nat -> v = 0).
Proof.
  split; [simpl; auto |].
  apply C4_file_entropy_zero_iff. simpl; auto.
Defined.

(** C5 (as stated, refuted): the aggregate is not [0.0] only when no file is
    requested or nothing changed. One requested file holding all ten changed
    lines has share [p = 1] and aggregate [0.0]. *)
Lemma C5_aggregate_zero_counterexample :
  let m := [("a.md", 10%nat)]%string in
  let fs := ["a.md"]%string in
  fs <> [] /\ sum_values m = 10%nat /\ compute_aggregate_entropy m fs = 0.
Proof.
  simpl. split; [discriminate | split; [reflexivity |]].
  apply aggregate_zero_iff. right. simpl. intros f c [H | []].
  inversion H. right. reflexivity.
Qed.

(** C5 (amended): the aggregate is non-negative; it is [0.0] exactly when no
    file is requested or every file's share of the total changes is [0] or
    [1] (which covers a change-free map and a single file holding all
    changes); it is strictly positive when some file is requested and some
    file's share is strictly between [0] and [1]. *)
Theorem C5_aggregate_sign (m : change_volume) (fs : list string) :
  0 <= compute_aggregate_entropy m fs /\
  (compute_aggregate_entropy m fs = 0 <->
     fs = [] \/ (forall f c, In (f, c) m -> c = 0%nat \/ c = sum_values m)) /\
  (fs <> [] -> (exists f c, In (f, c) m /\ (0 < c < sum_values m)%nat) ->
     0 < compute_aggregate_entropy m fs).
Proof.
  split; [apply aggregate_nonneg | split; [apply aggregate_zero_iff |]].
  intros Hfs [f [c [Hin Hc]]]. eapply aggregate_pos; eauto.
Qed.

(** C6: the per-file entropy map has exactly the keys of its input map, in
    the same order; a key present with count [0] maps to [0.0]; through the
    extractor, a requested file that no patch of the diff touched gets no
    entry. *)
Theorem C6_entropy_keys (m : change_volume) :
  map fst (entropy_of_changes m) = map fst m /\
  (forall f, In (f, 0%nat) m -> In (f, 0) (entropy_of_changes m)) /\
  (forall (d : diff) (file_names : list string) (f : string),
     In f (map fst (calculate_normalized_entropy d file_names)) <->
     In f file_names /\ exists p, In p d /\ new_file_path p = f).
Proof.
  split; [apply entropy_of_changes_keys | split].
  - intros f Hin. apply in_entropy_of_changes. exists 0%nat. split; [exact Hin |].
    symmetry. apply entropy_term_idle. auto.
  - intros d file_names f. unfold calculate_normalized_entropy.
    rewrite entropy_of_changes_keys. apply get_loc_changed_keys.
Qed.

(** C7: [{f1: 20, f2: 10, f3: 5}] with three requested files has a strictly
    greater aggregate than [{f1: 5}] with one requested file. *)
Theorem C7_three_vs_one_file :
  compute_aggregate_entropy [("f1", 20%nat); ("f2", 10%nat); ("f3", 5%nat)]%string
    ["f1"; "f2"; "f3"]%string
  > compute_aggregate_entropy [("f1", 5%nat)]%string ["f1"]%string.
Proof.
  assert (H1 : compute_aggregate_entropy [("f1", 5%nat)]%string ["f1"]%string = 0).
  { apply aggregate_zero_iff. right. simpl. intros f c [H | []].
    inversion H. right. reflexivity. }
  rewrite H1. unfold Rgt.
  apply (aggregate_pos _ _ "f2"%string 10%nat); [discriminate | simpl; auto | simpl; lia].
Qed.

(** C8: both functions are total on maps of non-negative counts: with the
    raising operations of Python made explicit, neither [ZeroDivisionError]
    nor [ValueError] is ever raised and the results are the values of the
    pure model; on the empty map the entropy map is empty and the aggregate
    for zero requested files is [0.0]. *)
Theorem C8_no_exception (m : change_volume) (file_names : list string) :
  entropy_of_changes_py m = inl (entropy_of_changes m) /\
  compute_aggregate_entropy_py m file_names =
    inl (compute_aggregate_entropy m file_names) /\
  entropy_of_changes_py [] = inl [] /\
  compute_aggregate_entropy_py [] [] = inl 0.
Proof.
  assert (Hagg : forall m' fs,
    compute_aggregate_entropy_py m' fs = inl (compute_aggregate_entropy m' fs)).
  { intros m' fs. unfold compute_aggregate_entropy_py, compute_aggregate_entropy,
      aggregate_of_entropies.
    rewrite entropy_of_changes_py_ok. simpl.
    destruct (0 <? List.length fs)%nat eqn:E; [| reflexivity].
    apply Nat.ltb_lt in E. unfold py_truediv.
    destruct (Req_EM_T (INR (List.length fs)) 0) as [H0 | H0]; [| reflexivity].
    exfalso. apply (not_0_INR (List.length fs)); [lia | exact H0]. }
  split; [apply entropy_of_changes_py_ok | split; [apply Hagg | split]].
  - reflexivity.
  - rewrite Hagg. reflexivity.
Qed.

(** C9: multiplying every count by a positive [k] leaves the per-file
    entropy map unchanged, hence also the aggregate for any request. *)
Theorem C9_scale_invariance (k : nat) (m : change_volume) :
  (0 < k)%nat ->
  entropy_of_changes (scale_counts k m) = entropy_of_changes m /\
  (forall file_names, compute_aggregate_entropy (scale_counts k m) file_names =
                      compute_aggregate_entropy m file_names).
Proof.
  intros Hk.
  assert (He : entropy_of_changes (scale_counts k m) = entropy_of_changes m).
  { unfold entropy_of_changes. rewrite sum_values_scale.
    generalize (sum_values m) as total. intros total.
    induction m as [| [f c] t IH]; simpl; [reflexivity |].
    rewrite entropy_term_scale by exact Hk. rewrite IH. reflexivity. }
  split; [exact He |].
  intros file_names. unfold compute_aggregate_entropy. rewrite He. reflexivity.
Qed.

Lemma C9_scale_invariance_witness :
  (0 < 3)%nat /\
  entropy_of_changes (scale_counts 3 [("a.md", 2%nat); ("b.md", 1%nat)]%string) =
    entropy_of_changes [("a.md", 2%nat); ("b.md", 1%nat)]%string /\
  (forall file_names,
     compute_aggregate_entropy (scale_counts 3 [("a.md", 2%nat); ("b.md", 1%nat)]%string)
       file_names =
     compute_aggregate_entropy [("a.md", 2%nat); ("b.md", 1%nat)]%string file_names).
Proof.
  split; [lia |]. apply C9_scale_invariance. lia.
Defined.

(** C10: for a fixed map the aggregate is antitone in the requested file
    count: for [1 <= n1 <= n2] the aggregate with [n2] files is at most the
    one with [n1] files, and strictly smaller when the total per-file
    entropy is positive and [n1 < n2]. *)
Theorem C10_denominator_antitone (m : change_volume) (fs1 fs2 : list string) :
  (1 <= List.length fs1)%nat -> (List.length fs1 <= List.length fs2)%nat ->
  compute_aggregate_entropy m fs2 <= compute_aggregate_entropy m fs1 /\
  (0 < sum_entropies (entropy_of_changes m) ->
   (List.length fs1 < List.length fs2)%nat ->
   compute_aggregate_entropy m fs2 < compute_aggregate_entropy m fs1).
Proof.
  intros H1 H12.
  rewrite !compute_aggregate_entropy_eq.
  destruct (List.length fs1 =? 0)%nat eqn:E1; [apply Nat.eqb_eq in E1; lia |].
  destruct (List.length fs2 =? 0)%nat eqn:E2; [apply Nat.eqb_eq in E2; lia |].
  set (S := sum_entropies (entropy_of_changes m)).
  assert (HS : 0 <= S) by apply (sum_entropies_nonneg _ (entropy_of_changes_nonneg m)).
  assert (Hn1 : 0 < INR (List.length fs1)) by (apply lt_0_INR; lia).
  assert (Hn12 : INR (List.length fs1) <= INR (List.length fs2)) by (apply le_INR; lia).
  split.
  - unfold Rdiv. apply Rmult_le_compat_l; [exact HS |].
    apply Rinv_le_contravar; assumption.
  - intros HSp Hlt.
    assert (INR (List.length fs1) < INR (List.length fs2)) by (apply lt_INR; lia).
    unfold Rdiv. apply Rmult_lt_compat_l; [exact HSp |].
    apply Rinv_lt_contravar; [nra | assumption].
Qed.

Lemma sum_entropies_pos (m : change_volume) (f : string) (c : nat) :
  In (f, c) m -> (0 < c < sum_values m)%nat ->
  0 < sum_entropies (entropy_of_changes m).
Proof.
  intros Hin Hc.
  pose proof (aggregate_pos m [f] f c ltac:(discriminate) Hin Hc) as H.
  rewrite compute_aggregate_entropy_eq in H. simpl in H.
  unfold Rdiv in H. rewrite Rinv_1, Rmult_1_r in H. exact H.
Qed.

Lemma C10_denominator_antitone_witness :
  (1 <= List.length ["a.md"; "b.md"]%string)%nat /\
  (List.length ["a.md"; "b.md"]%string <= List.length ["a.md"; "b.md"; "c.md"]%string)%nat /\
  0 < sum_entropies (entropy_of_changes [("a.md", 2%nat); ("b.md", 1%nat)]%string) /\
  (List.length ["a.md"; "b.md"]%string < List.length ["a.md"; "b.md"; "c.md"]%string)%nat /\
  compute_aggregate_entropy [("a.md", 2%nat); ("b.md", 1%nat)]%string
      ["a.md"; "b.md"; "c.md"]%string
    < compute_aggregate_entropy [("a.md", 2%nat); ("b.md", 1%nat)]%string
        ["a.md"; "b.md"]%string.
Proof.
  assert (Hs : 0 < sum_entropies (entropy_of_changes [("a.md", 2%nat); ("b.md", 1%nat)]%string)).
  { apply (sum_entropies_pos _ "a.md"%string 2%nat); [simpl; auto | simpl; lia]. }
  split; [simpl; lia | split; [simpl; lia | split; [exact Hs | split; [simpl; lia |]]]].
  apply (C10_denominator_antitone [("a.md", 2%nat); ("b.md", 1%nat)]%string
           ["a.md"; "b.md"]%string ["a.md"; "b.md"; "c.md"]%string);
    [simpl; lia | simpl; lia | exact Hs | simpl; lia].
Defined.

(** * Further properties of the code *)

(** ** Counting lines of a patch *)

Lemma hunk_fold_total (h : list ascii) (a d : nat) :
  let r := fold_left
         (fun '(additions, deletions) origin =>
            if Ascii.eqb origin "+"%char then (S additions, deletions)
            else if Ascii.eqb origin "-"%char then (additions, S deletions)
            else (additions, deletions))
         h (a, d) in
  (fst r + snd r =
   a + d + List.length (filter (fun o => Ascii.eqb o "+"%char || Ascii.eqb o "-"%char) h))%nat.
Proof.
  revert a d. induction h as [| o t IH]; intros a d; simpl; [lia |].
  destruct (Ascii.eqb o "+"%char); simpl.
  - rewrite IH. lia.
  - destruct (Ascii.eqb o "-"%char); simpl; rewrite IH; lia.
Qed.

Lemma patch_fold_total (hs : list (list ascii)) (a d : nat) :
  let r := fold_left
    (fun acc hunk =>
       fold_left
         (fun '(additions, deletions) origin =>
            if Ascii.eqb origin "+"%char then (S additions, deletions)
            else if Ascii.eqb origin "-"%char then (additions, S deletions)
            else (additions, deletions))
         hunk acc) hs (a, d) in
  (fst r + snd r =
   a + d + List.length (filter (fun o => Ascii.eqb o "+"%char || Ascii.eqb o "-"%char)
                          (List.concat hs)))%nat.
Proof.
  revert a d. induction hs as [| h t IH]; intros a d; simpl; [lia |].
  rewrite filter_app, length_app.
  pose proof (hunk_fold_total h a d) as Hh. simpl in Hh.
  destruct (fold_left _ h (a, d)) as [a' d'] eqn:E.
  rewrite IH. simpl in Hh. lia.
Qed.

(** X1: [lines_changed] of a patch is the number of its lines, over all
    hunks, whose origin is ["+"] or ["-"]; context and other lines are not
    counted. *)
Theorem X1_lines_changed_counts (p : patch) :
  lines_changed p =
  List.length (filter (fun o => Ascii.eqb o "+"%char || Ascii.eqb o "-"%char)
                      (List.concat (hunks p))).
Proof.
  unfold lines_changed, count_additions_deletions.
  pose proof (patch_fold_total (hunks p) 0 0) as H. simpl in H.
  destruct (fold_left _ (hunks p) (0%nat, 0%nat)) as [a d]. simpl in H. lia.
Qed.

(** ** Dict insert and lookup *)

Lemma dict_get_set {V : Type} (d : list (string * V)) (k k' : string) (v : V) :
  dict_get (dict_set d k v) k' = if String.eqb k' k then Some v else dict_get d k'.
Proof.
  induction d as [| [k0 v0] t IH]; simpl.
  - destruct (String.eqb k' k); reflexivity.
  - destruct (String.eqb k k0) eqn:E; simpl.
    + apply String.eqb_eq in E. subst k0.
      destruct (String.eqb k' k); reflexivity.
    + rewrite IH. destruct (String.eqb k' k0) eqn:E'; [| reflexivity].
      apply String.eqb_eq in E'. subst k0.
      destruct (String.eqb k' k) eqn:E''; [| reflexivity].
      apply String.eqb_eq in E''. subst. rewrite String.eqb_refl in E. discriminate.
Qed.

Lemma dict_set_nodup {V : Type} (d : list (string * V)) (k : string) (v : V) :
  NoDup (map fst d) -> NoDup (map fst (dict_set d k v)).
Proof.
  induction d as [| [k0 v0] t IH]; simpl; intros Hd.
  - constructor; [intros [] | constructor].
  - inversion Hd as [| ? ? Hnot Ht]; subst.
    destruct (String.eqb k k0) eqn:E; simpl.
    + apply String.eqb_eq in E. subst. constructor; assumption.
    + constructor; [| apply IH; exact Ht].
      rewrite dict_set_keys. intros [H | H]; [| contradiction].
      subst. rewrite String.eqb_refl in E. discriminate.
Qed.

Lemma get_loc_changed_snoc (d : diff) (p : patch) (fs : list string) :
  get_loc_changed (d ++ [p]) fs =
  if existsb (String.eqb (new_file_path p)) fs
  then dict_set (get_loc_changed d fs) (new_file_path p) (lines_changed p)
  else get_loc_changed d fs.
Proof. unfold get_loc_changed. rewrite fold_left_app. reflexivity. Qed.

(** X2: the count [get_loc_changed] stores for a file [f] is the lines
    changed of the last patch of the diff whose new path is [f], when [f] is
    requested; a file that is not requested or not touched has no entry. *)
Theorem X2_get_loc_changed_lookup (d : diff) (fs : list string) (f : string) :
  dict_get (get_loc_changed d fs) f =
  if existsb (String.eqb f) fs
  then option_map lines_changed
         (find (fun p => String.eqb (new_file_path p) f) (rev d))
  else None.
Proof.
  induction d as [| p d IH] using rev_ind.
  - simpl. destruct (existsb (String.eqb f) fs); reflexivity.
  - rewrite get_loc_changed_snoc, rev_app_distr. simpl.
    destruct (existsb (String.eqb (new_file_path p)) fs) eqn:Ep.
    + rewrite dict_get_set, IH.
      destruct (String.eqb f (new_file_path p)) eqn:Ef.
      * apply String.eqb_eq in Ef. subst f.
        rewrite Ep, String.eqb_refl. reflexivity.
      * rewrite String.eqb_sym, Ef. reflexivity.
    + rewrite IH. destruct (String.eqb (new_file_path p) f) eqn:Ef; [| reflexivity].
      apply String.eqb_eq in Ef. subst f. rewrite Ep. reflexivity.
Qed.

Lemma get_loc_changed_nodup_acc (d : diff) (fs : list string) (acc : change_volume) :
  NoDup (map fst acc) ->
  NoDup (map fst (fold_left
     (fun changes p =>
        if existsb (String.eqb (new_file_path p)) fs
        then dict_set changes (new_file_path p) (lines_changed p)
        else changes) d acc)).
Proof.
  revert acc. induction d as [| p t IH]; intros acc Hacc; simpl; [exact Hacc |].
  apply IH. destruct (existsb _ fs); [apply dict_set_nodup |]; exact Hacc.
Qed.

(** ** The edited-file set *)

Lemma set_add_In (s : list string) (x y : string) :
  In y (set_add s x) <-> y = x \/ In y s.
Proof.
  unfold set_add. destruct (existsb (String.eqb x) s) eqn:E.
  - apply existsb_eqb_In in E. split; [auto | intros [-> | H]; assumption].
  - rewrite in_app_iff. simpl. split; [intros [H | [H | []]]; auto | intros [H | H]; auto].
Qed.

Lemma set_add_nodup (s : list string) (x : string) :
  NoDup s -> NoDup (set_add s x).
Proof.
  intros Hs. unfold set_add. destruct (existsb (String.eqb x) s) eqn:E; [exact Hs |].
  apply NoDup_app; [exact Hs | constructor; [intros [] | constructor] |].
  intros y Hy [<- | []]. apply existsb_eqb_In in Hy. congruence.
Qed.

Lemma get_edited_files_acc (ds : list diff_delta) (acc : list string) (f : string) :
  let r := fold_left
    (fun file_names p =>
       let file_names :=
         if negb (String.eqb (old_file_path p) "") then
           set_add file_names (old_file_path p)
         else file_names in
       if negb (String.eqb (new_file_path (delta_patch p)) "") then
         set_add file_names (new_file_path (delta_patch p))
       else file_names) ds acc in
  (NoDup acc -> NoDup r) /\
  (In f r <-> In f acc \/
     (f <> ""%string /\ exists p, In p ds /\
        (old_file_path p = f \/ new_file_path (delta_patch p) = f))).
Proof.
  revert acc. induction ds as [| p t IH]; intros acc; simpl.
  { split; [auto |]. split; [auto | intros [H | [_ [q [[] _]]]]; exact H]. }
  set (acc1 := if negb (String.eqb (old_file_path p) "") then
                 set_add acc (old_file_path p) else acc).
  set (acc2 := if negb (String.eqb (new_file_path (delta_patch p)) "") then
                 set_add acc1 (new_file_path (delta_patch p)) else acc1).
  destruct (IH acc2) as [IHn IHi]. split.
  - intros Hacc. apply IHn. unfold acc2, acc1.
    destruct (negb (String.eqb (new_file_path (delta_patch p)) "")),
             (negb (String.eqb (old_file_path p) "")); repeat apply set_add_nodup; exact Hacc.
  - rewrite IHi.
    assert (H1 : In f acc1 <-> In f acc \/ (f <> ""%string /\ old_file_path p = f)).
    { unfold acc1. destruct (String.eqb (old_file_path p) "") eqn:E; simpl.
      - apply String.eqb_eq in E. split; [auto |]. intros [H | [Hf Ho]]; [exact H |].
        congruence.
      - apply String.eqb_neq in E. rewrite set_add_In.
        split; [intros [-> | H]; auto | intros [H | [Hf <-]]; auto]. }
    assert (H2 : In f acc2 <-> In f acc1 \/
                 (f <> ""%string /\ new_file_path (delta_patch p) = f)).
    { unfold acc2. destruct (String.eqb (new_file_path (delta_patch p)) "") eqn:E; simpl.
      - apply String.eqb_eq in E. split; [auto |]. intros [H | [Hf Ho]]; [exact H |].
        congruence.
      - apply String.eqb_neq in E. rewrite set_add_In.
        split; [intros [-> | H]; auto | intros [H | [Hf <-]]; auto]. }
    rewrite H2, H1. split.
    + intros [[[H | [Hf Ho]] | [Hf Hn]] | [Hf [q [Hq Hqf]]]]; auto;
        right; split; auto; eauto.
    + intros [H | [Hf [q [[<- | Hq] Hqf]]]]; auto.
      * destruct Hqf; auto.
      * right. split; [exact Hf | eauto].
Qed.

Lemma get_edited_files_spec (ds : list diff_delta) :
  NoDup (get_edited_files ds) /\
  (forall f, In f (get_edited_files ds) <->
     f <> ""%string /\ exists p, In p ds /\
       (old_file_path p = f \/ new_file_path (delta_patch p) = f)).
Proof.
  split.
  - apply (proj1 (get_edited_files_acc ds [] ""%string)). constructor.
  - intros f. unfold get_edited_files.
    rewrite (proj2 (get_edited_files_acc ds [] f)). simpl. tauto.
Qed.

(** X4: [get_edited_files] returns each edited path once: its result has no
    duplicates and contains exactly the non-empty old and new paths of the
    diff's entries. *)
Theorem X4_get_edited_files_set (ds : list diff_delta) :
  NoDup (get_edited_files ds) /\
  (forall f, In f (get_edited_files ds) <->
     f <> ""%string /\ exists p, In p ds /\
       (old_file_path p = f \/ new_file_path (delta_patch p) = f)).
Proof. apply get_edited_files_spec. Qed.

(** ** Order of the dict and zero-count entries *)

Lemma sum_values_perm (m m' : change_volume) :
  Permutation m m' -> sum_values m = sum_values m'.
Proof.
  induction 1 as [| [f c] l l' _ IH | [f c] [g e] l | ]; simpl; lia.
Qed.

(** X5: the per-file entropies do not depend on the order of the dict: a
    permuted change-volume map gives a permutation of the entropy map (the
    total [sum(loc_changes.values())] is a sum of ints, hence exact). *)
Theorem X5_entropy_map_order_independent (m m' : change_volume) :
  Permutation m m' ->
  Permutation (entropy_of_changes m) (entropy_of_changes m').
Proof.
  intros Hp. unfold entropy_of_changes. rewrite (sum_values_perm m m' Hp).
  apply Permutation_map. exact Hp.
Qed.

Lemma sum_values_app (m m' : change_volume) :
  sum_values (m ++ m') = (sum_values m + sum_values m')%nat.
Proof. induction m as [| [f c] t IH]; simpl; lia. Qed.

Lemma sum_entropies_app (l l' : file_entropy_map) :
  sum_entropies (l ++ l') = sum_entropies l + sum_entropies l'.
Proof. induction l as [| [f c] t IH]; simpl; lra. Qed.

(** X6: listing one more file with a count of [0] adds exactly the entry
    [(f, 0.0)] to the entropy map, leaves every other value unchanged and
    leaves the aggregate for a given request unchanged. *)
Theorem X6_zero_count_entry (m : change_volume) (f : string) :
  entropy_of_changes (m ++ [(f, 0%nat)]) = entropy_of_changes m ++ [(f, 0)] /\
  (forall fs, compute_aggregate_entropy (m ++ [(f, 0%nat)]) fs =
              compute_aggregate_entropy m fs).
Proof.
  assert (He : entropy_of_changes (m ++ [(f, 0%nat)]) = entropy_of_changes m ++ [(f, 0)]).
  { unfold entropy_of_changes. rewrite sum_values_app. simpl.
    rewrite Nat.add_0_r, map_app. reflexivity. }
  split; [exact He |]. intros fs.
  rewrite !compute_aggregate_entropy_eq, He, sum_entropies_app. simpl.
  rewrite Rplus_0_r, Rplus_0_r. reflexivity.
Qed.

(** ** Range of the aggregate of the whole pipeline *)

Lemma get_loc_changed_length (d : diff) (fs : list string) :
  (List.length (get_loc_changed d fs) <= List.length fs)%nat.
Proof.
  rewrite <- (length_map fst).
  apply NoDup_incl_length.
  - apply get_loc_changed_nodup_acc. constructor.
  - intros f Hf. apply get_loc_changed_keys in Hf. tauto.
Qed.

Lemma sum_entropies_le_length (l : file_entropy_map) :
  (forall f v, In (f, v) l -> v <= 1) -> sum_entropies l <= INR (List.length l).
Proof.
  induction l as [| [f v] t IH]; intros H; cbn [sum_entropies List.length]; [simpl; lra |].
  rewrite S_INR.
  assert (v <= 1) by (apply (H f); left; reflexivity).
  assert (sum_entropies t <= INR (List.length t)) by (apply IH; intros; eapply H; right; eauto).
  lra.
Qed.

Lemma entropy_of_changes_sum_le (m : change_volume) :
  sum_entropies (entropy_of_changes m) <= INR (List.length m).
Proof.
  rewrite <- (length_map (fun '(file_name, c) => (file_name, entropy_term c (sum_values m))) m).
  apply sum_entropies_le_length.
  intros f v Hin. fold (entropy_of_changes m) in Hin.
  apply in_entropy_of_changes in Hin as [c [Hin ->]].
  apply entropy_term_bounds. eapply in_le_sum_values; eauto.
Qed.

Lemma pipeline_aggregate_unit (d : diff) (fs : list string) :
  0 <= calculate_aggregate_entropy d fs <= 1.
Proof.
  unfold calculate_aggregate_entropy, calculate_normalized_entropy.
  fold (compute_aggregate_entropy (get_loc_changed d fs) fs).
  split; [apply aggregate_nonneg |].
  rewrite compute_aggregate_entropy_eq.
  destruct (List.length fs =? 0)%nat eqn:E; [lra |].
  apply Nat.eqb_neq in E.
  assert (HnR : 0 < INR (List.length fs)) by (apply lt_0_INR; lia).
  pose proof (entropy_of_changes_sum_le (get_loc_changed d fs)) as Hs.
  assert (INR (List.length (get_loc_changed d fs)) <= INR (List.length fs))
    by (apply le_INR, get_loc_changed_length).
  apply (Rmult_le_reg_r (INR (List.length fs))); [exact HnR |].
  unfold Rdiv. rewrite Rmult_assoc, Rinv_l by lra. lra.
Qed.

(** X9: whatever the diff and the requested list, the result of
    [calculate_aggregate_entropy] lies in [[0, 1]]: every requested file
    touched by the diff contributes at most [1] to the sum, and there are at
    most [len(file_names)] such files. *)
Theorem X9_aggregate_unit_range (d : diff) (fs : list string) :
  0 <= calculate_aggregate_entropy d fs <= 1.
Proof. apply pipeline_aggregate_unit. Qed.

(** ** The PR report data *)

Section Pr_data_facts.

Variable commit : Type.
Variable branch_target : string -> option commit.
Variable repo_diff : commit -> commit -> list diff_delta.
Variable commit_date : commit -> string.


Lemma pr_data_success (pr_branch main_branch : string) (pc mc : commit) :
  branch_target pr_branch = Some pc -> branch_target main_branch = Some mc ->
  let ds := repo_diff mc pc in
  compute_pr_data commit branch_target repo_diff commit_date pr_branch main_branch =
  PrData pr_branch main_branch
    (calculate_aggregate_entropy (patches_of ds) (get_edited_files ds))
    (List.length (get_edited_files ds))
    (calculate_normalized_entropy (patches_of ds) (get_edited_files ds))
    (commit_date mc, commit_date pc).
Proof.
  intros Hp Hm. unfold compute_pr_data. rewrite Hp, Hm. reflexivity.
Qed.

(** X11: when both branches exist, the report counts each edited path once
    ([number_of_files_changed] is the length of a duplicate-free list of the
    non-empty old and new paths of the diff), and [file_level_entropy] has
    one entry for each non-empty new path of the diff and no other. *)
Theorem X11_pr_data_files (pr_branch main_branch : string) (pc mc : commit) :
  branch_target pr_branch = Some pc -> branch_target main_branch = Some mc ->
  let ds := repo_diff mc pc in
  exists total fem,
    compute_pr_data commit branch_target repo_diff commit_date pr_branch main_branch =
    PrData pr_branch main_branch total (List.length (get_edited_files ds)) fem
      (commit_date mc, commit_date pc) /\
    NoDup (get_edited_files ds) /\
    NoDup (map fst fem) /\
    (forall f, In f (map fst fem) <->
       f <> ""%string /\ exists p, In p ds /\ new_file_path (delta_patch p) = f).
Proof.
  intros Hp Hm. cbv zeta.
  eexists _, _. split; [apply pr_data_success; assumption |].
  destruct (get_edited_files_spec (repo_diff mc pc)) as [Hnd Hin].
  split; [exact Hnd |].
  unfold calculate_normalized_entropy. rewrite entropy_of_changes_keys.
  split; [apply get_loc_changed_nodup_acc; constructor |].
  intros f. rewrite get_loc_changed_keys, Hin.
  unfold patches_of. split.
  - intros [[Hf _] [q [Hq Hqf]]].
    apply in_map_iff in Hq as [p [<- Hp']]. split; [exact Hf | eauto].
  - intros [Hf [p [Hp' Hpf]]]. split.
    + split; [exact Hf | eauto].
    + exists (delta_patch p). split; [apply in_map; exact Hp' | exact Hpf].
Qed.

(** X12: when both branches exist, [total_entropy_introduced] is [0.0] if no
    file was edited and always lies in [[0, 1]]. *)
Theorem X12_pr_data_entropy_range (pr_branch main_branch : string) (pc mc : commit) :
  branch_target pr_branch = Some pc -> branch_target main_branch = Some mc ->
  let ds := repo_diff mc pc in
  let n := List.length (get_edited_files ds) in
  exists total fem,
    compute_pr_data commit branch_target repo_diff commit_date pr_branch main_branch =
    PrData pr_branch main_branch total n fem (commit_date mc, commit_date pc) /\
    (n = 0%nat -> total = 0) /\
    0 <= total <= 1.
Proof.
  intros Hp Hm. cbv zeta.
  eexists _, _. split; [apply pr_data_success; assumption |]. split.
  - intros Hn. unfold calculate_aggregate_entropy, aggregate_of_entropies.
    rewrite Hn. reflexivity.
  - apply pipeline_aggregate_unit.
Qed.

End Pr_data_facts.

(** ** The almanack score *)

Lemma bool_results_acc (t : list almanack_item) (acc : list nat) :
  fold_left
    (fun acc item =>
       match bool_result_of item with
       | Some v => acc ++ [v]
       | None => acc
       end) t acc = acc ++ bool_results t.
Proof.
  unfold bool_results. revert acc.
  induction t as [| item t IH]; intros acc; simpl; [rewrite app_nil_r; reflexivity |].
  rewrite IH. rewrite (IH match bool_result_of item with Some v => [v] | None => [] end).
  destruct (bool_result_of item); simpl; [rewrite <- app_assoc |]; reflexivity.
Qed.

Lemma bool_results_cons (item : almanack_item) (t : list almanack_item) :
  bool_results (item :: t) =
  match bool_result_of item with Some v => [v] | None => [] end ++ bool_results t.
Proof.
  unfold bool_results at 1. simpl.
  rewrite bool_results_acc. destruct (bool_result_of item); reflexivity.
Qed.

Lemma bool_result_of_le_1 (item : almanack_item) (v : nat) :
  bool_result_of item = Some v -> (v <= 1)%nat.
Proof.
  unfold bool_result_of, int_of_bool.
  destruct (String.eqb _ _ && _); [| discriminate].
  destruct (Z.eqb _ 1); [| destruct (Z.eqb _ (-1)); [| discriminate]];
    destruct (result item) as [[] |]; intros H; inversion H; lia.
Qed.

Lemma bool_results_le_1 (t : list almanack_item) :
  Forall (fun v => v <= 1)%nat (bool_results t).
Proof.
  induction t as [| item t IH]; [constructor |].
  rewrite bool_results_cons. apply Forall_app. split; [| exact IH].
  destruct (bool_result_of item) eqn:E; constructor.
  - eapply bool_result_of_le_1; eauto.
  - constructor.
Qed.

Lemma list_sum_le_length (l : list nat) :
  Forall (fun v => v <= 1)%nat l -> (list_sum l <= List.length l)%nat.
Proof. induction 1; simpl; lia. Qed.

(** X13: [compute_almanack_score] returns [None] for numerator,
    denominator and score together, or an integer numerator at most a
    positive denominator and the score [numerator / denominator], which lies
    in [[0, 1]]. *)
Theorem X13_score_shape (t : list almanack_item) :
  let s := compute_almanack_score t in
  (almanack_score_numerator s = None /\ almanack_score_denominator s = None /\
   almanack_score_value s = None) \/
  (exists num den,
     almanack_score_numerator s = Some num /\
     almanack_score_denominator s = Some den /\
     (0 < den)%nat /\ (num <= den)%nat /\
     almanack_score_value s = Some (INR num / INR den) /\
     0 <= INR num / INR den <= 1).
Proof.
  cbv zeta. unfold compute_almanack_score. simpl.
  pose proof (list_sum_le_length _ (bool_results_le_1 t)) as Hle.
  destruct (bool_results t) as [| b bs] eqn:E; [left; auto |].
  right. exists (list_sum (b :: bs)), (List.length (b :: bs)).
  repeat split; auto; simpl List.length in *; try lia.
  - unfold Rdiv. apply Rmult_le_pos; [apply pos_INR |].
    left. apply Rinv_0_lt_compat, lt_0_INR. lia.
  - assert (0 < INR (S (List.length bs))) by (apply lt_0_INR; lia).
    assert (INR (list_sum (b :: bs)) <= INR (S (List.length bs))) by (apply le_INR; exact Hle).
    apply (Rmult_le_reg_r (INR (S (List.length bs)))); [lra |].
    unfold Rdiv. rewrite Rmult_assoc, Rinv_l by lra. lra.
Qed.

Lemma bool_result_of_None (item : almanack_item) :
  bool_result_of item = None <->
  ~ (result_type item = "bool"%string /\
     (sustainability_correlation item = 1%Z \/ sustainability_correlation item = (-1)%Z)).
Proof.
  unfold bool_result_of.
  destruct (String.eqb (result_type item) "bool") eqn:Et; simpl.
  - apply String.eqb_eq in Et.
    destruct (Z.eqb (sustainability_correlation item) 0) eqn:E0; simpl.
    + apply Z.eqb_eq in E0. rewrite E0. split; [intros _ [_ [H | H]]; discriminate | auto].
    + destruct (Z.eqb (sustainability_correlation item) 1) eqn:E1.
      { apply Z.eqb_eq in E1. split; [discriminate | intros H; exfalso; auto]. }
      destruct (Z.eqb (sustainability_correlation item) (-1)) eqn:E2.
      { apply Z.eqb_eq in E2. split; [discriminate | intros H; exfalso; auto]. }
      apply Z.eqb_neq in E1, E2. split; [intros _ [_ [H | H]]; contradiction | auto].
  - apply String.eqb_neq in Et. split; [intros _ [H _]; contradiction | auto].
Qed.

Lemma bool_results_nil (t : list almanack_item) :
  bool_results t = [] <-> forall item, In item t -> bool_result_of item = None.
Proof.
  induction t as [| item t IH]; [simpl; split; [intros _ _ [] | auto] |].
  rewrite bool_results_cons. destruct (bool_result_of item) eqn:E; simpl.
  - split; [discriminate | intros H]. rewrite (H item (or_introl eq_refl)) in E.
    discriminate.
  - rewrite IH. split.
    + intros H i [<- | Hi]; auto.
    + intros H i Hi. apply H. auto.
Qed.

(** X14: the score is [None] exactly when no row of the table is a boolean
    metric with a sustainability correlation of [1] or [-1]; rows of other
    types, and boolean rows with any other correlation, are ignored. *)
Theorem X14_score_none_iff (t : list almanack_item) :
  almanack_score_value (compute_almanack_score t) = None <->
  forall item, In item t ->
    ~ (result_type item = "bool"%string /\
       (sustainability_correlation item = 1%Z \/
        sustainability_correlation item = (-1)%Z)).
Proof.
  unfold compute_almanack_score. simpl.
  assert (H : almanack_score_value (compute_almanack_score t) = None <->
              bool_results t = []).
  { unfold compute_almanack_score. simpl.
    destruct (bool_results t); split; auto; discriminate. }
  simpl in H. rewrite H, bool_results_nil.
  split; intros Hall item Hi; apply bool_result_of_None; auto.
Qed.

Lemma bool_result_of_flip (item : almanack_item) :
  result item <> None ->
  bool_result_of (flip_correlation item) =
  option_map (fun v => 1 - v)%nat (bool_result_of item).
Proof.
  destruct item as [rt z [b |]]; [| intros H; contradiction H; reflexivity].
  intros _. unfold bool_result_of, flip_correlation. simpl.
  destruct (String.eqb rt "bool"); simpl; [| reflexivity].
  destruct z as [| [p | p |] | [p | p |]]; destruct b; reflexivity.
Qed.

Lemma bool_results_flip (t : list almanack_item) :
  (forall item, In item t -> result item <> None) ->
  bool_results (map flip_correlation t) = map (fun v => 1 - v)%nat (bool_results t).
Proof.
  induction t as [| item t IH]; intros H; [reflexivity |].
  simpl map. rewrite !bool_results_cons, map_app.
  rewrite bool_result_of_flip by (apply H; left; reflexivity).
  rewrite IH by (intros i Hi; apply H; right; exact Hi).
  destruct (bool_result_of item); reflexivity.
Qed.

Lemma list_sum_complement (l : list nat) :
  Forall (fun v => v <= 1)%nat l ->
  (list_sum (map (fun v => 1 - v) l) + list_sum l = List.length l)%nat.
Proof.
  induction 1 as [| x l Hx _ IH]; [reflexivity |].
  destruct x as [| [| x]]; simpl in *; lia.
Qed.

(** X15: when every row has a result, reversing the sustainability
    correlation of every row keeps the denominator and turns the numerator
    [num] into [den - num], so the score becomes [(den - num) / den]; the
    three fields stay [None] when they were [None]. *)
Theorem X15_score_flip_counts (t : list almanack_item) :
  (forall item, In item t -> result item <> None) ->
  let s := compute_almanack_score t in
  let s' := compute_almanack_score (map flip_correlation t) in
  almanack_score_denominator s' = almanack_score_denominator s /\
  match almanack_score_numerator s, almanack_score_denominator s with
  | Some num, Some den =>
      almanack_score_numerator s' = Some (den - num)%nat /\
      almanack_score_value s' = Some (INR (den - num) / INR den)
  | _, _ => almanack_score_numerator s' = None /\ almanack_score_value s' = None
  end.
Proof.
  intros H. cbv zeta. pose proof (bool_results_flip t H) as Hf.
  pose proof (list_sum_complement _ (bool_results_le_1 t)) as Hc.
  unfold compute_almanack_score. cbn [almanack_score_numerator
    almanack_score_denominator almanack_score_value].
  rewrite Hf. destruct (bool_results t) as [| b bs] eqn:E;
    [repeat split; reflexivity |].
  assert (Hn : list_sum (map (fun v => 1 - v)%nat (b :: bs)) =
               (List.length (b :: bs) - list_sum (b :: bs))%nat) by lia.
  rewrite Hn, length_map.
  repeat split; reflexivity.
Qed.

(** ** Witnesses at concrete inputs *)

Lemma X5_entropy_map_order_independent_witness :
  Permutation [("a.md", 1%nat); ("b.md", 2%nat)]%string
              [("b.md", 2%nat); ("a.md", 1%nat)]%string /\
  Permutation (entropy_of_changes [("a.md", 1%nat); ("b.md", 2%nat)]%string)
              (entropy_of_changes [("b.md", 2%nat); ("a.md", 1%nat)]%string).
Proof.
  split; [apply perm_swap |].
  apply (X5_entropy_map_order_independent [("a.md", 1%nat); ("b.md", 2%nat)]%string
           [("b.md", 2%nat); ("a.md", 1%nat)]%string).
  apply perm_swap.
Defined.


Lemma X11_pr_data_files_witness :
  let bt := fun s : string =>
    if String.eqb s "pr" then Some 1%nat
    else if String.eqb s "main" then Some 0%nat else None in
  let rd := fun (_ _ : nat) =>
    [{| old_file_path := "a.md";
        delta_patch := {| new_file_path := "a.md"; hunks := [["+"; "-"]%char] |} |};
     {| old_file_path := "old.md";
        delta_patch := {| new_file_path := "new.md"; hunks := [["+"]%char] |} |}]%string in
  let cd := fun n : nat => if Nat.eqb n 0 then "2024-01-01"%string else "2024-02-01"%string in
  bt "pr"%string = Some 1%nat /\ bt "main"%string = Some 0%nat /\
  exists total fem,
    compute_pr_data nat bt rd cd "pr" "main" =
    PrData "pr" "main" total (List.length (get_edited_files (rd 0%nat 1%nat))) fem
      (cd 0%nat, cd 1%nat) /\
    NoDup (get_edited_files (rd 0%nat 1%nat)) /\
    NoDup (map fst fem) /\
    (forall f, In f (map fst fem) <->
       f <> ""%string /\ exists p, In p (rd 0%nat 1%nat) /\ new_file_path (delta_patch p) = f).
Proof.
  intros bt rd cd. split; [reflexivity | split; [reflexivity |]].
  apply (X11_pr_data_files nat bt rd cd "pr" "main" 1%nat 0%nat); reflexivity.
Defined.

Lemma X12_pr_data_entropy_range_witness :
  let bt := fun s : string =>
    if String.eqb s "pr" then Some 1%nat
    else if String.eqb s "main" then Some 0%nat else None in
  let rd := fun (_ _ : nat) =>
    [{| old_file_path := "a.md";
        delta_patch := {| new_file_path := "a.md"; hunks := [["+"; "-"]%char] |} |};
     {| old_file_path := "b.md";
        delta_patch := {| new_file_path := "b.md"; hunks := [["+"]%char] |} |}]%string in
  let cd := fun _ : nat => "2024-01-01"%string in
  bt "pr"%string = Some 1%nat /\ bt "main"%string = Some 0%nat /\
  exists total fem,
    compute_pr_data nat bt rd cd "pr" "main" =
    PrData "pr" "main" total (List.length (get_edited_files (rd 0%nat 1%nat))) fem
      (cd 0%nat, cd 1%nat) /\
    (List.length (get_edited_files (rd 0%nat 1%nat)) = 0%nat -> total = 0) /\
    0 <= total <= 1.
Proof.
  intros bt rd cd. split; [reflexivity | split; [reflexivity |]].
  apply (X12_pr_data_entropy_range nat bt rd cd "pr" "main" 1%nat 0%nat); reflexivity.
Defined.

Lemma X15_score_flip_counts_witness :
  let t := [{| result_type := "bool"; sustainability_correlation := 1%Z;
               result := Some true |};
            {| result_type := "bool"; sustainability_correlation := (-1)%Z;
               result := Some true |};
            {| result_type := "int"; sustainability_correlation := 1%Z;
               result := Some false |}]%string in
  (forall item, In item t -> result item <> None) /\
  almanack_score_denominator (compute_almanack_score (map flip_correlation t)) =
  almanack_score_denominator (compute_almanack_score t) /\
  match almanack_score_numerator (compute_almanack_score t),
        almanack_score_denominator (compute_almanack_score t) with
  | Some num, Some den =>
      almanack_score_numerator (compute_almanack_score (map flip_correlation t)) =
        Some (den - num)%nat /\
      almanack_score_value (compute_almanack_score (map flip_correlation t)) =
        Some (INR (den - num) / INR den)
  | _, _ =>
      almanack_score_numerator (compute_almanack_score (map flip_correlation t)) = None /\
      almanack_score_value (compute_almanack_score (map flip_correlation t)) = None
  end.
Proof.
  intros t.
  assert (H : forall item, In item t -> result item <> None).
  { intros item Hi. simpl in Hi.
    destruct Hi as [<- | [<- | [<- | []]]]; discriminate. }
  split; [exact H | apply (X15_score_flip_counts t H)].
Defined.
